(** * cookie.io: the photo-analysis pipeline and its UI state machine

    A shallow embedding of [analyzePhoto] (services/geminiService.ts) and of
    [handleFileSelect] / [resetApp] (src/App.tsx), with the properties of the
    orchestration pipeline stated over it.

    - JavaScript strings are sequences of UTF-16 code units.
    - The vendor SDK ([ai.models.generateContent]), the console and the React
      state setters are effects: a program is a finite tree of effect
      requests, [try]/[catch] is a function on such trees, and [run]
      interprets a tree against an arbitrary stateful service. *)

From Stdlib Require Import List String Ascii NArith Bool Lia.
Import ListNotations.

Local Open Scope N_scope.

(* ===================================================================== *)
(** ** JavaScript strings *)
(* ===================================================================== *)

(** A UTF-16 code unit (a number below 65536) and a string of them. *)
Definition code_unit := N.
Definition js_string := list code_unit.

(** A source-code string literal (ASCII only in this program). *)
Definition lit (s : string) : js_string :=
  map N_of_ascii (list_ascii_of_string s).

(** ECMAScript [WhiteSpace]: TAB, VT, FF, ZWNBSP and the space separators. *)
Definition isWhiteSpace (c : code_unit) : bool :=
  (c =? 9) || (c =? 11) || (c =? 12) || (c =? 32) || (c =? 160)
  || (c =? 5760) || ((8192 <=? c) && (c <=? 8202))
  || (c =? 8239) || (c =? 8287) || (c =? 12288) || (c =? 65279).

(** ECMAScript [LineTerminator]: LF, CR, LS, PS. *)
Definition isLineTerminator (c : code_unit) : bool :=
  (c =? 10) || (c =? 13) || (c =? 8232) || (c =? 8233).

(** What [String.prototype.trim] strips: white space and line terminators. *)
Definition isTrimmed (c : code_unit) : bool :=
  isWhiteSpace c || isLineTerminator c.

Fixpoint trimStart (s : js_string) : js_string :=
  match s with
  | [] => []
  | c :: r => if isTrimmed c then trimStart r else s
  end.

Definition trimEnd (s : js_string) : js_string :=
  rev (trimStart (rev s)).

(** [s.trim()] *)
Definition trim (s : js_string) : js_string :=
  trimEnd (trimStart s).

(** A string made of white space only (the empty string included). *)
Definition blank (s : js_string) : bool := forallb isTrimmed s.

(** First and last code unit are not white space. *)
Definition noSurroundingSpace (s : js_string) : Prop :=
  (forall c r, s = c :: r -> isTrimmed c = false) /\
  (forall c r, s = r ++ [c] -> isTrimmed c = false).

(** [a || b] on strings-or-undefined: the empty string and [undefined] are
    falsy, every other string is truthy. *)
Definition orElse (a : option js_string) (b : js_string) : js_string :=
  match a with
  | Some (c :: r) => c :: r
  | _ => b
  end.

(** [a || null]: the result [None] is [null], whether [a] was [undefined] or
    the empty string. *)
Definition orNull (a : option js_string) : option js_string :=
  match a with
  | Some (c :: r) => Some (c :: r)
  | _ => None
  end.

(** [o?.f]: [undefined] when [o] is [undefined], the property otherwise. *)
Definition optChain {A B} (o : option A) (f : A -> option B) : option B :=
  match o with
  | Some x => f x
  | None => None
  end.

(** [o?.m()] for a method that always returns a value. *)
Definition optCall {A B} (o : option A) (m : A -> B) : option B :=
  match o with
  | Some x => Some (m x)
  | None => None
  end.

(** [a?.[0]]: [undefined] past the end of the array. *)
Definition optIndex0 {A} (o : option (list A)) : option A :=
  optChain o (fun l => nth_error l 0).

Notation "o ?. f" := (optChain o f) (at level 49, left associativity).

(* ===================================================================== *)
(** ** The vendor SDK's request and response shapes *)
(* ===================================================================== *)

(** What a rejected promise carries: an error object, of which the program
    reads only [message]. *)
Record JsError := mkError { message : option js_string }.

(** [new Error(msg)] *)
Definition newError (msg : js_string) : JsError := mkError (Some msg).

Module Blob.
Record t := mk { data : option js_string; mimeType : option js_string }.
End Blob.

Module Part.
Record t := mk { inlineData : option Blob.t; text : option js_string }.
End Part.

Module Content.
Record t := mk { parts : option (list Part.t) }.
End Content.

Module Candidate.
Record t := mk { content : option Content.t }.
End Candidate.

(** [GenerateContentResponse]: the [text] accessor (a string or [undefined])
    and the optional [candidates] array. *)
Module Response.
Record t := mk {
  text : option js_string;
  candidates : option (list Candidate.t)
}.
End Response.

(** An element of a [contents] array: a part object or a bare string. *)
Inductive PartUnion :=
| PartObject (p : Part.t)
| PartString (s : js_string).

(** The three forms of [contents] this program sends. *)
Inductive ContentListUnion :=
| ContentsText (s : js_string)
| ContentsParts (l : list PartUnion)
| ContentsList (l : list Content.t).

Inductive Tool := googleSearch.
Inductive Modality := AUDIO.

(** [speechConfig.voiceConfig.prebuiltVoiceConfig.voiceName] *)
Record SpeechConfig := mkSpeech { voiceName : js_string }.

Record GenerateContentConfig := mkConfig {
  tools : option (list Tool);
  responseModalities : option (list Modality);
  speechConfig : option SpeechConfig
}.

Record GenerateContentParameters := mkParams {
  model : js_string;
  contents : ContentListUnion;
  config : option GenerateContentConfig
}.

(* ===================================================================== *)
(** ** The application's data *)
(* ===================================================================== *)

(** The object [analyzePhoto] returns. *)
Module Analysis.
Record t := mk {
  landmark : js_string;
  history : js_string;
  audioBase64 : option js_string
}.
End Analysis.

(** [interface ResultData] *)
Module ResultData.
Record t := mk {
  imageSrc : js_string;
  landmark : js_string;
  history : js_string;
  audioBase64 : option js_string
}.
End ResultData.

(** [type AppState = 'idle' | 'analyzing' | 'result'] *)
Inductive AppState := idle | analyzing | result.

(** The three [useState] cells the handlers write: [appState], [result] and
    [error] in the source. *)
Record UI := mkUI {
  appState : AppState;
  uiResult : option ResultData.t;
  uiError : option js_string
}.

(** [useState] initial values. *)
Definition initialUI : UI := mkUI idle None None.

(** A selected file, given by what [FileReader.readAsDataURL] delivers for it
    in [reader.result]. *)
Record File := mkFile { dataURL : js_string }.

(** One argument of a [console.error] call. *)
Inductive ConsoleArg :=
| LogText (s : js_string)
| LogError (e : JsError).

(* ===================================================================== *)
(** ** Programs: finite trees of effect requests *)
(* ===================================================================== *)

(** The effects the two source files perform; the index is the type of the
    answer.  A service call answers with a rejection or a response. *)
Inductive Event : Type -> Type :=
| GenerateContent (p : GenerateContentParameters)
    : Event (JsError + Response.t)
| ConsoleError (args : list ConsoleArg) : Event unit
| SetError (e : option js_string) : Event unit
| SetAppState (s : AppState) : Event unit
| SetResult (r : option ResultData.t) : Event unit.

Inductive Prog (A : Type) : Type :=
| Ret (a : A)
| Throw (e : JsError)
| Vis (X : Type) (ev : Event X) (k : X -> Prog A).

Arguments Ret {A} a.
Arguments Throw {A} e.
Arguments Vis {A X} ev k.

Fixpoint bind {A B} (p : Prog A) (f : A -> Prog B) : Prog B :=
  match p with
  | Ret a => f a
  | Throw e => Throw e
  | Vis ev k => Vis ev (fun x => bind (k x) f)
  end.

(** [try { p } catch (e) { h e }] *)
Fixpoint try_catch {A} (p : Prog A) (h : JsError -> Prog A) : Prog A :=
  match p with
  | Ret a => Ret a
  | Throw e => h e
  | Vis ev k => Vis ev (fun x => try_catch (k x) h)
  end.

Definition trigger {X} (ev : Event X) : Prog X := Vis ev (fun x => Ret x).

Notation "x <- p ;; q" := (bind p (fun x => q))
  (at level 61, p at next level, right associativity).
Notation "p ;; q" := (bind p (fun _ => q))
  (at level 61, right associativity).

(** [await ai.models.generateContent(params)]: a rejection is thrown at the
    [await]. *)
Definition generateContent (params : GenerateContentParameters)
  : Prog Response.t :=
  o <- trigger (GenerateContent params) ;;
  match o with
  | inl e => Throw e
  | inr r => Ret r
  end.

Definition console_error (args : list ConsoleArg) : Prog unit :=
  trigger (ConsoleError args).
Definition setError (e : option js_string) : Prog unit := trigger (SetError e).
Definition setAppState (s : AppState) : Prog unit := trigger (SetAppState s).
Definition setResult (r : option ResultData.t) : Prog unit :=
  trigger (SetResult r).

(* ===================================================================== *)
(** ** services/geminiService.ts *)
(* ===================================================================== *)

Definition identifyInstruction : js_string :=
  lit "Identify the main landmark, building, or point of interest in this photo. Return ONLY the name of the landmark and the city/country it is in. If there is no clear landmark, describe the scene briefly.".

(** The request of stage 1. *)
Definition identifyParams (base64Image mimeType : js_string)
  : GenerateContentParameters :=
  mkParams (lit "gemini-3.1-pro-preview")
    (ContentsParts
       [ PartObject
           (Part.mk (Some (Blob.mk (Some base64Image) (Some mimeType))) None);
         PartString identifyInstruction ])
    None.

Definition historyPromptHead : js_string :=
  lit "You are an engaging tour guide. Tell me the history and interesting facts about ".
Definition historyPromptTail : js_string :=
  lit ". Keep it engaging, informative, and concise (around 100-150 words).".

(** The template literal of stage 2. *)
Definition historyPrompt (landmarkName : js_string) : js_string :=
  historyPromptHead ++ landmarkName ++ historyPromptTail.

(** The request of stage 2. *)
Definition historyParams (landmarkName : js_string)
  : GenerateContentParameters :=
  mkParams (lit "gemini-3-flash-preview")
    (ContentsText (historyPrompt landmarkName))
    (Some (mkConfig (Some [googleSearch]) None None)).

(** The request of stage 3. *)
Definition ttsParams (historyText : js_string) : GenerateContentParameters :=
  mkParams (lit "gemini-2.5-flash-preview-tts")
    (ContentsList [ Content.mk (Some [ Part.mk None (Some historyText) ]) ])
    (Some (mkConfig None (Some [AUDIO]) (Some (mkSpeech (lit "Kore"))))).

(** [r.candidates?.[0]?.content?.parts?.[0]?.inlineData?.data || null] *)
Definition extractAudio (ttsResponse : Response.t) : option js_string :=
  orNull
    (optIndex0
       (optIndex0 (Response.candidates ttsResponse)
          ?. Candidate.content ?. Content.parts)
       ?. Part.inlineData ?. Blob.data).

Definition analyzePhoto (base64Image mimeType : js_string)
  : Prog Analysis.t :=
  try_catch
    ( (* 1. Identify Landmark *)
      identifyResponse <- generateContent (identifyParams base64Image mimeType) ;;
      let landmarkName :=
        orElse (optCall (Response.text identifyResponse) trim)
               (lit "Unknown Location") in
      (* 2. Fetch History using Search Grounding *)
      historyResponse <- generateContent (historyParams landmarkName) ;;
      let historyText :=
        orElse (optCall (Response.text historyResponse) trim)
               (lit "History not available.") in
      (* 3. Generate Narration *)
      let audioBase64_0 : option js_string := None in
      audioBase64 <-
        try_catch
          ( ttsResponse <- generateContent (ttsParams historyText) ;;
            Ret (extractAudio ttsResponse) )
          (fun ttsError =>
             console_error [LogText (lit "TTS generation failed:");
                            LogError ttsError] ;;
             Ret audioBase64_0) ;;
      Ret (Analysis.mk landmarkName historyText audioBase64) )
    (fun error =>
       console_error [LogText (lit "Error analyzing photo:"); LogError error] ;;
       Throw error).

(* ===================================================================== *)
(** ** src/App.tsx *)
(* ===================================================================== *)

(** [s] with the prefix [p] removed, when it starts with [p]. *)
Fixpoint stripPrefix (p s : js_string) : option js_string :=
  match p, s with
  | [], _ => Some s
  | x :: p', y :: s' => if x =? y then stripPrefix p' s' else None
  | _ :: _, [] => None
  end.

(** The longest prefix of [s] whose code units satisfy [f], and the rest. *)
Fixpoint span (f : code_unit -> bool) (s : js_string)
  : js_string * js_string :=
  match s with
  | [] => ([], [])
  | c :: r =>
      if f c then let (a, b) := span f r in (c :: a, b) else ([], s)
  end.

(** The character class [[a-zA-Z+]]. *)
Definition isSubtypeChar (c : code_unit) : bool :=
  ((97 <=? c) && (c <=? 122)) || ((65 <=? c) && (c <=? 90)) || (c =? 43).

(** [s.match(/^data:(image\/[a-zA-Z+]+);base64,(.+)$/)]: the two groups of
    the match.  The class excludes [;], so the greedy run of the first group
    is the only candidate; [.] excludes line terminators and [$] is the end
    of the input, so the second group is the whole non-empty rest. *)
Definition matchDataURL (s : js_string) : option (js_string * js_string) :=
  match stripPrefix (lit "data:") s with
  | None => None
  | Some s1 =>
    match stripPrefix (lit "image/") s1 with
    | None => None
    | Some s2 =>
      let (subtype, s3) := span isSubtypeChar s2 in
      match subtype with
      | [] => None
      | _ :: _ =>
        match stripPrefix (lit ";base64,") s3 with
        | None => None
        | Some payload =>
          match payload with
          | [] => None
          | _ :: _ =>
            if forallb (fun c => negb (isLineTerminator c)) payload
            then Some (lit "image/" ++ subtype, payload)
            else None
          end
        end
      end
    end
  end.

(** The [reader.onloadend] callback, run on [reader.result].  It is an async
    function: a [Throw] here is the rejection of the promise it returns. *)
Definition onloadend (readerResult : js_string) : Prog unit :=
  let base64String := readerResult in
  match matchDataURL base64String with
  | None => Throw (newError (lit "Invalid image format"))
  | Some (mimeType, base64Data) =>
      try_catch
        ( analysis <- analyzePhoto base64Data mimeType ;;
          setResult
            (Some (ResultData.mk base64String
                     (Analysis.landmark analysis)
                     (Analysis.history analysis)
                     (Analysis.audioBase64 analysis))) ;;
          setAppState result )
        (fun err =>
           console_error [LogError err] ;;
           setError
             (Some (orElse (message err) (lit "Failed to analyze photo"))) ;;
           setAppState idle)
  end.

(** The synchronous part of [handleFileSelect]: the [try] block creates the
    reader, installs [onloadend] and starts the read; the callback itself
    runs later, outside this [try]. *)
Definition handleFileSelect (file : option File) : Prog unit :=
  match file with
  | None => Ret tt
  | Some _ =>
      setError None ;;
      setAppState analyzing ;;
      try_catch
        (Ret tt)
        (fun err =>
           setError
             (Some (orElse (message err) (lit "Failed to process image"))) ;;
           setAppState idle)
  end.

(** A file selection from start to end: the handler, then the callback once
    the browser has read the file. *)
Definition selectFile (file : File) : Prog unit :=
  handleFileSelect (Some file) ;;
  onloadend (dataURL file).

(* ===================================================================== *)
(** ** Running a program against a service *)
(* ===================================================================== *)

(** How a run ends: a value, or a thrown error (a rejected promise). *)
Inductive Completion (A : Type) : Type :=
| Returned (a : A)
| Thrown (e : JsError).

Arguments Returned {A} a.
Arguments Thrown {A} e.

(** The outcome of one service call. *)
Definition Outcome : Type := JsError + Response.t.

(** A service that answers the [n]-th call with the [n]-th entry of a script
    and rejects once the script is exhausted; its state counts the calls. *)
Definition scripted (script : list Outcome)
  (p : GenerateContentParameters) (n : nat) : Outcome * nat :=
  (nth n script (inl (mkError None)), S n).

Section Run.

(** The remote service: any state, any answers. *)
Variable ServiceState : Type.
Variable service :
  GenerateContentParameters -> ServiceState -> Outcome * ServiceState.

(** Everything a run can observe or change: the service, the requests sent
    to it so far (oldest first), the console, and the UI state. *)
Record World := mkWorld {
  svc : ServiceState;
  calls : list GenerateContentParameters;
  console : list (list ConsoleArg);
  ui : UI
}.

Definition handle {X} (ev : Event X) (w : World) : X * World :=
  match ev in Event X return X * World with
  | GenerateContent p =>
      let (o, s') := service p (svc w) in
      (o, mkWorld s' (calls w ++ [p]) (console w) (ui w))
  | ConsoleError args =>
      (tt, mkWorld (svc w) (calls w) (console w ++ [args]) (ui w))
  | SetError e =>
      (tt, mkWorld (svc w) (calls w) (console w)
             (mkUI (appState (ui w)) (uiResult (ui w)) e))
  | SetAppState s =>
      (tt, mkWorld (svc w) (calls w) (console w)
             (mkUI s (uiResult (ui w)) (uiError (ui w))))
  | SetResult r =>
      (tt, mkWorld (svc w) (calls w) (console w)
             (mkUI (appState (ui w)) r (uiError (ui w))))
  end.

Fixpoint run {A} (p : Prog A) (w : World) : Completion A * World :=
  match p with
  | Ret a => (Returned a, w)
  | Throw e => (Thrown e, w)
  | Vis ev k => let (x, w') := handle ev w in run (k x) w'
  end.

(** [w] after further calls and console lines that left the service in
    state [s]. *)
Definition called (w : World) (s : ServiceState)
  (ps : list GenerateContentParameters) (lines : list (list ConsoleArg))
  : World :=
  mkWorld s (calls w ++ ps) (console w ++ lines) (ui w).

End Run.

Arguments mkWorld {ServiceState} _ _ _ _.
Arguments svc {ServiceState} _.
Arguments calls {ServiceState} _.
Arguments console {ServiceState} _.
Arguments ui {ServiceState} _.
Arguments handle {ServiceState} service {X} ev w.
Arguments run {ServiceState} service {A} p w.
Arguments called {ServiceState} w s ps lines.


(* ===================================================================== *)
(** ** Vocabulary of the statements *)
(* ===================================================================== *)

(** The label stage 1 derives from the identification response:
    [identifyResponse.text?.trim() || "Unknown Location"]. *)
Definition landmarkNameOf (identifyResponse : Response.t) : js_string :=
  orElse (optCall (Response.text identifyResponse) trim)
         (lit "Unknown Location").

(** The text stage 2 derives from the history response:
    [historyResponse.text?.trim() || "History not available."]. *)
Definition historyTextOf (historyResponse : Response.t) : js_string :=
  orElse (optCall (Response.text historyResponse) trim)
         (lit "History not available.").

(** A service text that carries nothing: no text, the empty string, or white
    space only. *)
Definition noUsableText (t : option js_string) : bool :=
  match t with
  | None => true
  | Some s => blank s
  end.

(** [u] is [t] with the white space around it removed. *)
Definition surroundingSpaceRemoved (t u : js_string) : Prop :=
  (exists pre post,
      t = pre ++ u ++ post /\ blank pre = true /\ blank post = true) /\
  noSurroundingSpace u.

(** Executable form of [noSurroundingSpace]. *)
Definition cleanEnds (s : js_string) : bool :=
  match s with
  | [] => true
  | c :: _ => negb (isTrimmed c) && negb (isTrimmed (last s c))
  end.

(** The inline payload found at the first part of the first candidate. *)
Definition firstPartPayload (r : Response.t) (d : js_string) : Prop :=
  exists c cs ct p ps b,
    Response.candidates r = Some (c :: cs) /\
    Candidate.content c = Some ct /\
    Content.parts ct = Some (p :: ps) /\
    Part.inlineData p = Some b /\
    Blob.data b = Some d.

(** The ways a narration response can lack a usable first payload: a link of
    the chain [candidates[0].content.parts[0].inlineData.data] is missing, an
    array on it is empty, or the payload is the empty string. *)
Inductive audioMissing (r : Response.t) : Prop :=
| missing_candidates :
    Response.candidates r = None -> audioMissing r
| empty_candidates :
    Response.candidates r = Some [] -> audioMissing r
| missing_content c cs :
    Response.candidates r = Some (c :: cs) ->
    Candidate.content c = None -> audioMissing r
| missing_parts c cs ct :
    Response.candidates r = Some (c :: cs) ->
    Candidate.content c = Some ct ->
    Content.parts ct = None -> audioMissing r
| empty_parts c cs ct :
    Response.candidates r = Some (c :: cs) ->
    Candidate.content c = Some ct ->
    Content.parts ct = Some [] -> audioMissing r
| missing_inlineData c cs ct p ps :
    Response.candidates r = Some (c :: cs) ->
    Candidate.content c = Some ct ->
    Content.parts ct = Some (p :: ps) ->
    Part.inlineData p = None -> audioMissing r
| missing_data c cs ct p ps b :
    Response.candidates r = Some (c :: cs) ->
    Candidate.content c = Some ct ->
    Content.parts ct = Some (p :: ps) ->
    Part.inlineData p = Some b ->
    Blob.data b = None -> audioMissing r
| empty_data c cs ct p ps b :
    Response.candidates r = Some (c :: cs) ->
    Candidate.content c = Some ct ->
    Content.parts ct = Some (p :: ps) ->
    Part.inlineData p = Some b ->
    Blob.data b = Some [] -> audioMissing r.

(** The strings of the language of [/^data:(image\/[a-zA-Z+]+);base64,(.+)$/],
    with the two groups [m] and [d]. *)
Definition dataURLShape (s m d : js_string) : Prop :=
  exists subtype,
    s = lit "data:" ++ lit "image/" ++ subtype ++ lit ";base64," ++ d /\
    m = lit "image/" ++ subtype /\
    subtype <> [] /\ forallb isSubtypeChar subtype = true /\
    d <> [] /\ forallb (fun c => negb (isLineTerminator c)) d = true.

(** The text the UI shows for a rejection: [err.message || fallback]. *)
Definition errorText (err : JsError) (fallback : js_string) : js_string :=
  orElse (message err) fallback.

(* --------------------------------------------------------------------- *)
(** *** Sample inputs *)

Definition sampleImage : js_string := lit "AAAA".
Definition sampleMime : js_string := lit "image/png".
Definition sampleFile : File := mkFile (lit "data:image/png;base64,AAAA").
Definition badFile : File := mkFile (lit "data:text/plain;base64,AAAA").

Definition textResponse (t : js_string) : Response.t :=
  Response.mk (Some t) None.
Definition emptyResponse : Response.t := Response.mk None None.

(** A narration response whose candidate has the given parts. *)
Definition partsResponse (ps : list Part.t) : Response.t :=
  Response.mk None (Some [Candidate.mk (Some (Content.mk (Some ps)))]).
Definition audioPart (d : js_string) : Part.t :=
  Part.mk (Some (Blob.mk (Some d) (Some (lit "audio/L16")))) None.
Definition textPart (t : js_string) : Part.t := Part.mk None (Some t).

Definition quotaError : JsError := newError (lit "quota exceeded").
Definition timeoutError : JsError := newError (lit "timed out").

(** A fresh page in front of a scripted service. *)
Definition world0 : World nat := mkWorld 0%nat [] [] initialUI.

Definition eiffel : Outcome :=
  inr (textResponse (lit "  Eiffel Tower, Paris, France ")).
Definition eiffelHistory : Outcome :=
  inr (textResponse (lit "Built for the 1889 World's Fair.")).

(** Stages 1 and 2 answer, the narration call is refused. *)
Definition quotaScript : list Outcome :=
  [eiffel; eiffelHistory; inl quotaError].

(** Blank identification text, no history text, audio in the second part
    only. *)
Definition blankScript : list Outcome :=
  [ inr (textResponse (lit "   "));
    inr emptyResponse;
    inr (partsResponse [textPart (lit "intro"); audioPart (lit "UklGRg==")]) ].

(** All three stages answer, with audio in the first part. *)
Definition audioScript : list Outcome :=
  [ eiffel; eiffelHistory;
    inr (partsResponse [audioPart (lit "UklGRg=="); audioPart (lit "AAAA")]) ].

Definition sampleRun (script : list Outcome)
  : Completion Analysis.t * World nat :=
  run (scripted script) (analyzePhoto sampleImage sampleMime) world0.

Definition blankAnalysis : Analysis.t :=
  Analysis.mk (lit "Unknown Location") (lit "History not available.") None.
Definition quotaAnalysis : Analysis.t :=
  Analysis.mk (lit "Eiffel Tower, Paris, France")
    (lit "Built for the 1889 World's Fair.") None.
Definition audioAnalysis : Analysis.t :=
  Analysis.mk (lit "Eiffel Tower, Paris, France")
    (lit "Built for the 1889 World's Fair.") (Some (lit "UklGRg==")).
(* ===================================================================== *)
(** ** src/App.tsx: the screens and the page as a whole *)
(* ===================================================================== *)

(** An [HTMLAudioElement], as far as [resetApp] acts on it. *)
Record Audio := mkAudio { paused : bool }.

(** [audio.pause()] *)
Definition pause (a : Audio) : Audio := mkAudio true.

(** [resetApp], called while [audioRef.current] holds [audioRef]: what the
    handle holds afterwards, and the writes to the state cells. *)
Definition resetApp (audioRef : option Audio) : option Audio * Prog unit :=
  (match audioRef with
   | Some a => Some (pause a)
   | None => None
   end,
   setResult None ;;
   setAppState idle ;;
   setError None).

(** Truthiness of a string-or-null, as in [error && ...] and
    [result.audioBase64 ? ... : ...]. *)
Definition truthy (s : option js_string) : bool :=
  match s with
  | Some (_ :: _) => true
  | _ => false
  end.

(** What the three conditional blocks of the JSX put on the page: the idle
    block with its optional error banner, the analyzing block, the result
    block with either the audio button or "Audio unavailable", or none of
    them. *)
Inductive Screen :=
| IdleScreen (banner : option js_string)
| AnalyzingScreen
| ResultScreen (r : ResultData.t) (audioButton : bool)
| NoScreen.

Definition render (u : UI) : Screen :=
  match appState u with
  | idle => IdleScreen (if truthy (uiError u) then uiError u else None)
  | analyzing => AnalyzingScreen
  | result =>
      match uiResult u with
      | Some r => ResultScreen r (truthy (ResultData.audioBase64 r))
      | None => NoScreen
      end
  end.

(** What the user can do to the state cells: a change event of one of the two
    file inputs (with [e.target.files?.[0]]), or a press of the reset button
    (while the audio handle holds [audioRef]). *)
Inductive UserEvent :=
| PickFile (file : option File)
| PressReset (audioRef : option Audio).

(** The controls each block carries: the file inputs live in the idle block,
    the reset button in the result block, the analyzing block has none. *)
Definition offered (s : Screen) (ev : UserEvent) : bool :=
  match s, ev with
  | IdleScreen _, PickFile _ => true
  | ResultScreen _ _, PressReset _ => true
  | _, _ => false
  end.

(** The handler wired to each control, run to its end. *)
Definition react (ev : UserEvent) : Prog unit :=
  match ev with
  | PickFile None => handleFileSelect None
  | PickFile (Some file) => selectFile file
  | PressReset audioRef => snd (resetApp audioRef)
  end.


(** No file is picked whose data URL the pattern turns down. *)
Definition wellFormedPick (ev : UserEvent) : bool :=
  match ev with
  | PickFile (Some file) =>
      match matchDataURL (dataURL file) with
      | Some _ => true
      | None => false
      end
  | _ => true
  end.


Section Page.

Variable ServiceState : Type.
Variable service :
  GenerateContentParameters -> ServiceState -> Outcome * ServiceState.

(** [w] once the synchronous part of [handleFileSelect] has run. *)
Definition entered (w : World ServiceState) : World ServiceState :=
  mkWorld (svc w) (calls w) (console w)
    (mkUI analyzing (uiResult (ui w)) None).

(** One user event: ignored when the screen does not carry its control;
    otherwise the handler runs to its end, and an unhandled rejection leaves
    the page as it is at that point. *)
Definition pageStep (w : World ServiceState) (ev : UserEvent)
  : World ServiceState :=
  if offered (render (ui w)) ev then snd (run service (react ev) w) else w.

Definition pageRun (w : World ServiceState) (evs : list UserEvent)
  : World ServiceState :=
  fold_left pageStep evs w.

End Page.

Arguments entered {ServiceState} w.
Arguments pageStep {ServiceState} service w ev.
Arguments pageRun {ServiceState} service w evs.

(* --------------------------------------------------------------------- *)
(** *** More sample inputs *)

Definition iconFile : File := mkFile (lit "data:image/x-icon;base64,AAAA").

(** A session: a refused narration, a reset, a second photo with audio, a
    reset, and a photo the service times out on. *)
Definition sessionScript : list Outcome :=
  quotaScript ++ audioScript ++ [inl timeoutError].
Definition sessionEvents : list UserEvent :=
  [ PickFile (Some sampleFile); PressReset None;
    PickFile (Some sampleFile); PressReset (Some (mkAudio false));
    PickFile None; PickFile (Some sampleFile) ].

(* --------------------------------------------------------------------- *)
(** *** Facts about [trim] *)

Lemma trimStart_head s c r : trimStart s = c :: r -> isTrimmed c = false.
Proof.
  induction s as [|a s IH]; simpl; [discriminate|].
  destruct (isTrimmed a) eqn:Ea; [exact IH|].
  intros H; injection H as -> _; exact Ea.
Qed.

Lemma trimStart_blank s : blank s = true -> trimStart s = [].
Proof.
  induction s as [|a s IH]; simpl; [reflexivity|].
  destruct (isTrimmed a); simpl; [exact IH | discriminate].
Qed.

Lemma trimStart_nil_blank s : trimStart s = [] -> blank s = true.
Proof.
  induction s as [|a s IH]; simpl; [reflexivity|].
  destruct (isTrimmed a); simpl; [exact IH | discriminate].
Qed.

Lemma trimStart_split s :
  exists pre, s = pre ++ trimStart s /\ blank pre = true.
Proof.
  induction s as [|a s [pre [E B]]]; simpl.
  - exists []; split; reflexivity.
  - destruct (isTrimmed a) eqn:Ea.
    + exists (a :: pre); split; simpl; [f_equal; exact E | now rewrite Ea].
    + exists []; split; reflexivity.
Qed.

Lemma blank_app a b : blank (a ++ b) = blank a && blank b.
Proof. apply forallb_app. Qed.

Lemma blank_rev s : blank (rev s) = blank s.
Proof.
  induction s as [|a s IH]; simpl; [reflexivity|].
  rewrite blank_app, IH; simpl. rewrite andb_true_r. apply andb_comm.
Qed.

Lemma trimEnd_split s :
  exists post, s = trimEnd s ++ post /\ blank post = true.
Proof.
  destruct (trimStart_split (rev s)) as [pre [E B]].
  exists (rev pre); split.
  - unfold trimEnd. rewrite <- rev_app_distr, <- E. symmetry; apply rev_involutive.
  - now rewrite blank_rev.
Qed.

Lemma trimEnd_last s c r : trimEnd s = r ++ [c] -> isTrimmed c = false.
Proof.
  unfold trimEnd; intros H.
  apply (f_equal (@rev _)) in H. rewrite rev_involutive, rev_app_distr in H.
  simpl in H. exact (trimStart_head _ _ _ H).
Qed.

(** Stripping the end keeps a first code unit that is not white space. *)
Lemma trimStart_snoc_keep s c :
  isTrimmed c = false -> exists r, trimStart (s ++ [c]) = r ++ [c].
Proof.
  intros Hc. induction s as [|a s [r IH]]; simpl.
  - rewrite Hc. exists []; reflexivity.
  - destruct (isTrimmed a).
    + exists r; exact IH.
    + exists (a :: s); reflexivity.
Qed.

Lemma trimEnd_head_keep c s :
  isTrimmed c = false -> exists r, trimEnd (c :: s) = c :: r.
Proof.
  intros Hc. unfold trimEnd; simpl.
  destruct (trimStart_snoc_keep (rev s) c Hc) as [r E].
  exists (rev r). rewrite E, rev_app_distr. reflexivity.
Qed.

Lemma trim_blank s : blank s = true -> trim s = [].
Proof. intros B. unfold trim. now rewrite (trimStart_blank _ B). Qed.

Lemma trim_nil_blank s : trim s = [] -> blank s = true.
Proof.
  unfold trim; intros H.
  destruct (trimStart s) as [|c r] eqn:E.
  - exact (trimStart_nil_blank _ E).
  - destruct (trimEnd_head_keep c r (trimStart_head _ _ _ E)) as [r' E'].
    rewrite E' in H; discriminate.
Qed.

Lemma trim_nonblank s : blank s = false -> trim s <> [].
Proof.
  intros B H. rewrite (trim_nil_blank _ H) in B; discriminate.
Qed.

(** [trim s] is [s] without a white-space prefix and a white-space suffix. *)
Lemma trim_split s :
  exists pre post,
    s = pre ++ trim s ++ post /\ blank pre = true /\ blank post = true.
Proof.
  destruct (trimStart_split s) as [pre [E1 B1]].
  destruct (trimEnd_split (trimStart s)) as [post [E2 B2]].
  exists pre, post; repeat split; try assumption.
  unfold trim. rewrite <- E2. exact E1.
Qed.

(** Nothing is left to strip at either end of [trim s]. *)
Lemma trim_noSurroundingSpace s : noSurroundingSpace (trim s).
Proof.
  split; intros c r H.
  - unfold trim in H. destruct (trimStart s) as [|a t] eqn:E.
    + discriminate.
    + pose proof (trimStart_head _ _ _ E) as Ha.
      destruct (trimEnd_head_keep a t Ha) as [r' E'].
      rewrite E' in H. injection H as <- _. exact Ha.
  - exact (trimEnd_last _ _ _ H).
Qed.

Lemma trim_surroundingSpaceRemoved s : surroundingSpaceRemoved s (trim s).
Proof. split; [apply trim_split | apply trim_noSurroundingSpace]. Qed.

Lemma last_snoc (r : js_string) c d : last (r ++ [c]) d = c.
Proof.
  induction r as [|a r IH]; simpl; [reflexivity|].
  destruct (r ++ [c]) eqn:E; [destruct r; discriminate | exact IH].
Qed.

Lemma cleanEnds_sound s : cleanEnds s = true -> noSurroundingSpace s.
Proof.
  destruct s as [|a s]; intros H.
  - split; intros c r E; [discriminate | destruct r; discriminate].
  - simpl in H. apply andb_true_iff in H as [Ha Hl].
    apply negb_true_iff in Ha, Hl.
    split; intros c r E.
    + injection E as <- _. exact Ha.
    + change (isTrimmed (last (a :: s) a) = false) in Hl.
      rewrite E, last_snoc in Hl. exact Hl.
Qed.

(** What [text?.trim() || fallback] evaluates to. *)
Lemma orElse_trim_cases (t : option js_string) (fallback : js_string) :
  match t with
  | None => orElse (optCall t trim) fallback = fallback
  | Some s =>
      if blank s
      then orElse (optCall t trim) fallback = fallback
      else orElse (optCall t trim) fallback = trim s /\ trim s <> []
  end.
Proof.
  destruct t as [s|]; simpl; [|reflexivity].
  destruct (blank s) eqn:B.
  - now rewrite (trim_blank _ B).
  - pose proof (trim_nonblank _ B) as N.
    destruct (trim s); [contradiction | split; [reflexivity | discriminate]].
Qed.

Lemma orElse_nonempty a b : b <> [] -> orElse a b <> [].
Proof. destruct a as [[|c r]|]; simpl; trivial; discriminate. Qed.

Lemma orNull_nonempty a : orNull a <> Some [].
Proof. destruct a as [[|c r]|]; simpl; discriminate. Qed.

Lemma orNull_Some a d : orNull a = Some d <-> a = Some d /\ d <> [].
Proof.
  destruct a as [[|c r]|]; simpl; split.
  - discriminate.
  - intros [E N]. injection E as <-. now contradiction N.
  - intros E; injection E as <-; split; [reflexivity | discriminate].
  - intros [E _]; exact E.
  - discriminate.
  - intros [E _]; discriminate.
Qed.

(* --------------------------------------------------------------------- *)
(** *** The data-URL pattern *)

Lemma stripPrefix_Some p s r : stripPrefix p s = Some r <-> s = p ++ r.
Proof.
  revert s; induction p as [|x p IH]; intros s; simpl.
  - split; [intros E; now injection E | intros ->; reflexivity].
  - destruct s as [|y s]; [split; discriminate|].
    destruct (N.eqb_spec x y) as [->|N].
    + rewrite IH. split; [intros ->; reflexivity | intros E; now injection E].
    + split; [discriminate | intros E; injection E as E _; congruence].
Qed.

Lemma span_spec f s a b :
  span f s = (a, b) ->
  s = a ++ b /\ forallb f a = true /\
  match b with [] => True | c :: _ => f c = false end.
Proof.
  revert a b; induction s as [|c s IH]; intros a b; simpl.
  - intros E; injection E as <- <-. repeat split.
  - destruct (f c) eqn:Fc.
    + destruct (span f s) as [a' b'] eqn:Es. intros E; injection E as <- <-.
      destruct (IH a' b' eq_refl) as (-> & Fa & Fb).
      simpl. rewrite Fc. repeat split; assumption.
    + intros E; injection E as <- <-. repeat split. exact Fc.
Qed.

Lemma span_stop f a c b :
  forallb f a = true -> f c = false -> span f (a ++ c :: b) = (a, c :: b).
Proof.
  intros Fa Fc. induction a as [|x a IH]; simpl.
  - now rewrite Fc.
  - simpl in Fa. apply andb_true_iff in Fa as [Fx Fa].
    now rewrite Fx, (IH Fa).
Qed.

(** [matchDataURL] accepts exactly the language of the pattern. *)
Lemma matchDataURL_Some s m d :
  matchDataURL s = Some (m, d) <-> dataURLShape s m d.
Proof.
  unfold matchDataURL, dataURLShape. split.
  - destruct (stripPrefix (lit "data:") s) as [s1|] eqn:E1; [|discriminate].
    destruct (stripPrefix (lit "image/") s1) as [s2|] eqn:E2; [|discriminate].
    destruct (span isSubtypeChar s2) as [sub s3] eqn:E3.
    destruct sub as [|x sub]; [discriminate|].
    destruct (stripPrefix (lit ";base64,") s3) as [pl|] eqn:E4;
      [|discriminate].
    destruct pl as [|y pl]; [discriminate|].
    destruct (forallb _ (y :: pl)) eqn:E5; [|discriminate].
    intros E; injection E as <- <-.
    apply stripPrefix_Some in E1, E2, E4.
    apply span_spec in E3 as (E3 & F & _).
    exists (x :: sub). subst s s1 s2 s3.
    repeat split; try assumption; discriminate.
  - intros (sub & -> & -> & Ns & Fs & Nd & Fd).
    rewrite (proj2 (stripPrefix_Some _ _ _) eq_refl).
    rewrite (proj2 (stripPrefix_Some _ _ _) eq_refl).
    change (lit ";base64," ++ d) with (59 :: lit "base64," ++ d).
    rewrite (span_stop isSubtypeChar sub 59 _ Fs eq_refl).
    destruct sub as [|x sub]; [contradiction|].
    change (59 :: lit "base64," ++ d) with (lit ";base64," ++ d).
    rewrite (proj2 (stripPrefix_Some _ _ _) eq_refl).
    destruct d as [|y d]; [contradiction|].
    now rewrite Fd.
Qed.

Lemma matchDataURL_None s :
  matchDataURL s = None <-> forall m d, ~ dataURLShape s m d.
Proof.
  split.
  - intros E m d H. apply matchDataURL_Some in H. congruence.
  - intros H. destruct (matchDataURL s) as [[m d]|] eqn:E; [|reflexivity].
    apply matchDataURL_Some in E. now apply H in E.
Qed.

(* ===================================================================== *)
(** ** Running the pipeline *)
(* ===================================================================== *)

Section Properties.

Variable ServiceState : Type.
Variable service :
  GenerateContentParameters -> ServiceState -> Outcome * ServiceState.

Local Abbreviation World := (World ServiceState).
Local Abbreviation run := (run service).

Lemma run_bind {A B} (p : Prog A) (f : A -> Prog B) (w : World) :
  run (bind p f) w =
  match run p w with
  | (Returned a, w') => run (f a) w'
  | (Thrown e, w') => (Thrown e, w')
  end.
Proof.
  revert w; induction p as [a|e|X ev k IH]; intros w; simpl.
  - destruct (run (f a) w); reflexivity.
  - reflexivity.
  - destruct (handle service ev w) as [x w1]. apply IH.
Qed.

Lemma run_try_catch {A} (p : Prog A) (h : JsError -> Prog A) (w : World) :
  run (try_catch p h) w =
  match run p w with
  | (Returned a, w') => (Returned a, w')
  | (Thrown e, w') => run (h e) w'
  end.
Proof.
  revert w; induction p as [a|e|X ev k IH]; intros w; simpl.
  - reflexivity.
  - destruct (run (h e) w); reflexivity.
  - destruct (handle service ev w) as [x w1]. apply IH.
Qed.

Lemma run_generateContent params (w : World) :
  run (generateContent params) w =
  match service params (svc w) with
  | (inl e, s) => (Thrown e, called w s [params] [])
  | (inr r, s) => (Returned r, called w s [params] [])
  end.
Proof.
  unfold generateContent, trigger, called; simpl.
  destruct (service params (svc w)) as [[e|r] s]; simpl;
    rewrite app_nil_r; reflexivity.
Qed.

Lemma called_called (w : World) s ps ls s' ps' ls' :
  called (called w s ps ls) s' ps' ls' = called w s' (ps ++ ps') (ls ++ ls').
Proof. unfold called; simpl. now rewrite <- !app_assoc. Qed.

Lemma run_console_error args (w : World) :
  run (console_error args) w = (Returned tt, called w (svc w) [] [args]).
Proof. unfold called; simpl. now rewrite app_nil_r. Qed.

(** The whole behaviour of [analyzePhoto], by the outcomes of its calls. *)
Lemma run_analyzePhoto img mime (w : World) :
  run (analyzePhoto img mime) w =
  match service (identifyParams img mime) (svc w) with
  | (inl e, s1) =>
      (Thrown e,
       called w s1 [identifyParams img mime]
         [[LogText (lit "Error analyzing photo:"); LogError e]])
  | (inr r1, s1) =>
      match service (historyParams (landmarkNameOf r1)) s1 with
      | (inl e, s2) =>
          (Thrown e,
           called w s2
             [identifyParams img mime; historyParams (landmarkNameOf r1)]
             [[LogText (lit "Error analyzing photo:"); LogError e]])
      | (inr r2, s2) =>
          match service (ttsParams (historyTextOf r2)) s2 with
          | (inl e, s3) =>
              (Returned
                 (Analysis.mk (landmarkNameOf r1) (historyTextOf r2) None),
               called w s3
                 [identifyParams img mime; historyParams (landmarkNameOf r1);
                  ttsParams (historyTextOf r2)]
                 [[LogText (lit "TTS generation failed:"); LogError e]])
          | (inr r3, s3) =>
              (Returned
                 (Analysis.mk (landmarkNameOf r1) (historyTextOf r2)
                    (extractAudio r3)),
               called w s3
                 [identifyParams img mime; historyParams (landmarkNameOf r1);
                  ttsParams (historyTextOf r2)]
                 [])
          end
      end
  end.
Proof.
  unfold analyzePhoto.
  rewrite run_try_catch, run_bind, run_generateContent.
  destruct (service (identifyParams img mime) (svc w)) as [[e|r1] s1].
  { rewrite run_bind, run_console_error. cbn [run].
    now rewrite called_called. }
  fold (landmarkNameOf r1).
  rewrite run_bind, run_generateContent.
  change (svc (called w s1 [identifyParams img mime] [])) with s1.
  destruct (service (historyParams (landmarkNameOf r1)) s1) as [[e|r2] s2].
  { rewrite run_bind, run_console_error. cbn [run].
    now rewrite !called_called. }
  fold (historyTextOf r2).
  rewrite run_bind, run_try_catch, run_bind, run_generateContent.
  rewrite called_called.
  match goal with
  | |- context [svc (called w s2 ?ps ?ls)] =>
      change (svc (called w s2 ps ls)) with s2
  end.
  destruct (service (ttsParams (historyTextOf r2)) s2) as [[e|r3] s3].
  - rewrite run_bind, run_console_error. cbn [run].
    now rewrite !called_called.
  - cbn [run]. now rewrite !called_called.
Qed.

(* --------------------------------------------------------------------- *)
(** *** Which failures abort the pipeline *)

(** C1: [analyzePhoto] returns a result exactly when the identification call
    and the history call both succeed.  If the identification call rejects,
    or the history call rejects, [analyzePhoto] rejects with that same error
    and no result; if only the narration call rejects, it still returns. *)
Theorem analyzePhoto_returns_iff_fatal_stages_succeed
    img mime (w : World) :
  ((exists a w', run (analyzePhoto img mime) w = (Returned a, w')) <->
   (exists r1 s1 r2 s2,
       service (identifyParams img mime) (svc w) = (inr r1, s1) /\
       service (historyParams (landmarkNameOf r1)) s1 = (inr r2, s2)))
  /\
  (forall e s1,
      service (identifyParams img mime) (svc w) = (inl e, s1) ->
      exists w', run (analyzePhoto img mime) w = (Thrown e, w'))
  /\
  (forall r1 s1 e s2,
      service (identifyParams img mime) (svc w) = (inr r1, s1) ->
      service (historyParams (landmarkNameOf r1)) s1 = (inl e, s2) ->
      exists w', run (analyzePhoto img mime) w = (Thrown e, w'))
  /\
  (forall r1 s1 r2 s2 e s3,
      service (identifyParams img mime) (svc w) = (inr r1, s1) ->
      service (historyParams (landmarkNameOf r1)) s1 = (inr r2, s2) ->
      service (ttsParams (historyTextOf r2)) s2 = (inl e, s3) ->
      exists a w', run (analyzePhoto img mime) w = (Returned a, w')).
Proof.
  pose proof (run_analyzePhoto img mime w) as R.
  repeat split.
  - intros (a & w' & E). rewrite E in R.
    destruct (service (identifyParams img mime) (svc w)) as [[e|r1] s1];
      [discriminate|].
    destruct (service (historyParams (landmarkNameOf r1)) s1)
      as [[e|r2] s2] eqn:E2; [discriminate|].
    exists r1, s1, r2, s2; split; [reflexivity | exact E2].
  - intros (r1 & s1 & r2 & s2 & E1 & E2). rewrite E1, E2 in R.
    destruct (service (ttsParams (historyTextOf r2)) s2) as [[e|r3] s3];
      eexists; eexists; exact R.
  - intros e s1 E1. rewrite E1 in R. eexists; exact R.
  - intros r1 s1 e s2 E1 E2. rewrite E1, E2 in R. eexists; exact R.
  - intros r1 s1 r2 s2 e s3 E1 E2 E3. rewrite E1, E2, E3 in R.
    eexists; eexists; exact R.
Qed.

(** C2: a rejection of the narration call is caught inside stage 3: the run
    returns, only the stage's own console line is written, the landmark and
    the history are the ones stages 1 and 2 produced, and [audioBase64] is
    [null]. *)
Theorem narration_failure_is_contained
    img mime (w : World) r1 s1 r2 s2 e s3 :
  service (identifyParams img mime) (svc w) = (inr r1, s1) ->
  service (historyParams (landmarkNameOf r1)) s1 = (inr r2, s2) ->
  service (ttsParams (historyTextOf r2)) s2 = (inl e, s3) ->
  exists a w',
    run (analyzePhoto img mime) w = (Returned a, w') /\
    Analysis.landmark a = landmarkNameOf r1 /\
    Analysis.history a = historyTextOf r2 /\
    Analysis.audioBase64 a = None /\
    console w' =
      console w ++ [[LogText (lit "TTS generation failed:"); LogError e]] /\
    ui w' = ui w.
Proof.
  intros E1 E2 E3.
  pose proof (run_analyzePhoto img mime w) as R. rewrite E1, E2, E3 in R.
  eexists; eexists; split; [exact R|]. repeat split.
Qed.

(* --------------------------------------------------------------------- *)
(** *** The fallback texts *)

(** C3: in a returned result the landmark is the literal "Unknown Location"
    when the identification response has no text or only white space, and
    otherwise the response text with the white space around it removed. *)
Theorem landmark_is_trimmed_text_or_fallback
    img mime (w : World) a w' :
  run (analyzePhoto img mime) w = (Returned a, w') ->
  exists r1 s1,
    service (identifyParams img mime) (svc w) = (inr r1, s1) /\
    (noUsableText (Response.text r1) = true ->
       Analysis.landmark a = lit "Unknown Location") /\
    (forall t,
       Response.text r1 = Some t -> blank t = false ->
       Analysis.landmark a = trim t /\
       surroundingSpaceRemoved t (Analysis.landmark a)).
Proof.
  intros E.
  pose proof (run_analyzePhoto img mime w) as R. rewrite E in R.
  destruct (service (identifyParams img mime) (svc w)) as [[e|r1] s1];
    [discriminate|].
  exists r1, s1. split; [reflexivity|].
  assert (L : Analysis.landmark a = landmarkNameOf r1).
  { destruct (service (historyParams (landmarkNameOf r1)) s1)
      as [[e|r2] s2]; [discriminate|].
    destruct (service (ttsParams (historyTextOf r2)) s2) as [[e|r3] s3];
      injection R as -> _; reflexivity. }
  rewrite L. unfold landmarkNameOf.
  pose proof (orElse_trim_cases (Response.text r1) (lit "Unknown Location"))
    as C.
  split.
  - intros U. destruct (Response.text r1) as [t|]; [|exact C].
    simpl in U. rewrite U in C. exact C.
  - intros t Et B. rewrite Et in *. rewrite B in C. destruct C as [C _].
    rewrite C. split; [reflexivity | apply trim_surroundingSpaceRemoved].
Qed.

(** C4: in a returned result the history is the literal
    "History not available." when the history response has no text or only
    white space, and otherwise the response text with the white space around
    it removed; this holds whatever label the history call was made for. *)
Theorem history_is_trimmed_text_or_fallback
    img mime (w : World) a w' :
  run (analyzePhoto img mime) w = (Returned a, w') ->
  exists r1 s1 r2 s2,
    service (identifyParams img mime) (svc w) = (inr r1, s1) /\
    service (historyParams (Analysis.landmark a)) s1 = (inr r2, s2) /\
    (noUsableText (Response.text r2) = true ->
       Analysis.history a = lit "History not available.") /\
    (forall t,
       Response.text r2 = Some t -> blank t = false ->
       Analysis.history a = trim t /\
       surroundingSpaceRemoved t (Analysis.history a)).
Proof.
  intros E.
  pose proof (run_analyzePhoto img mime w) as R. rewrite E in R.
  destruct (service (identifyParams img mime) (svc w)) as [[e|r1] s1];
    [discriminate|].
  destruct (service (historyParams (landmarkNameOf r1)) s1)
    as [[e|r2] s2] eqn:E2; [discriminate|].
  assert (L : Analysis.landmark a = landmarkNameOf r1 /\
              Analysis.history a = historyTextOf r2).
  { destruct (service (ttsParams (historyTextOf r2)) s2) as [[e|r3] s3];
      injection R as -> _; split; reflexivity. }
  destruct L as [L H].
  exists r1, s1, r2, s2. rewrite L, H.
  split; [reflexivity|]. split; [exact E2|].
  unfold historyTextOf.
  pose proof (orElse_trim_cases (Response.text r2)
                (lit "History not available.")) as C.
  split.
  - intros U. destruct (Response.text r2) as [t|]; [|exact C].
    simpl in U. rewrite U in C. exact C.
  - intros t Et B. rewrite Et in *. rewrite B in C. destruct C as [C _].
    rewrite C. split; [reflexivity | apply trim_surroundingSpaceRemoved].
Qed.

(** C5: once the identification call has answered, the next request of the
    same run is the history request whose prompt is the fixed template around
    the label derived from that answer (the fallback "Unknown Location" when
    the answer carried no usable text), and a returned result carries that
    same label. *)
Theorem history_prompt_carries_label_of_same_run
    img mime (w : World) r1 s1 c w' :
  service (identifyParams img mime) (svc w) = (inr r1, s1) ->
  run (analyzePhoto img mime) w = (c, w') ->
  (exists rest,
      calls w' =
        calls w ++ identifyParams img mime
                :: historyParams (landmarkNameOf r1) :: rest) /\
  contents (historyParams (landmarkNameOf r1)) =
    ContentsText
      (historyPromptHead ++ landmarkNameOf r1 ++ historyPromptTail) /\
  (noUsableText (Response.text r1) = true ->
     landmarkNameOf r1 = lit "Unknown Location") /\
  (forall a, c = Returned a -> Analysis.landmark a = landmarkNameOf r1).
Proof.
  intros E1 E.
  pose proof (run_analyzePhoto img mime w) as R. rewrite E, E1 in R.
  split; [|split; [reflexivity|split]].
  - destruct (service (historyParams (landmarkNameOf r1)) s1)
      as [[e|r2] s2].
    + injection R as _ ->. exists []. reflexivity.
    + destruct (service (ttsParams (historyTextOf r2)) s2) as [[e|r3] s3];
        injection R as _ ->; eexists; reflexivity.
  - intros U. unfold landmarkNameOf.
    pose proof (orElse_trim_cases (Response.text r1)
                  (lit "Unknown Location")) as C.
    destruct (Response.text r1) as [t|]; [|exact C].
    simpl in U. rewrite U in C. exact C.
  - intros a ->.
    destruct (service (historyParams (landmarkNameOf r1)) s1)
      as [[e|r2] s2]; [discriminate|].
    destruct (service (ttsParams (historyTextOf r2)) s2) as [[e|r3] s3];
      injection R as -> _; reflexivity.
Qed.

(* --------------------------------------------------------------------- *)
(** *** The narration audio *)

Ltac audio_cases :=
  unfold extractAudio, optIndex0, optChain;
  repeat match goal with
  | |- context [match Response.candidates ?r with _ => _ end] =>
      destruct (Response.candidates r) as [[|? ?]|] eqn:?; simpl
  | |- context [match Candidate.content ?c with _ => _ end] =>
      destruct (Candidate.content c) as [?|] eqn:?; simpl
  | |- context [match Content.parts ?ct with _ => _ end] =>
      destruct (Content.parts ct) as [[|? ?]|] eqn:?; simpl
  | |- context [match Part.inlineData ?p with _ => _ end] =>
      destruct (Part.inlineData p) as [?|] eqn:?; simpl
  | |- context [orNull (Blob.data ?b)] =>
      destruct (Blob.data b) as [[|? ?]|] eqn:?; simpl
  end.

Lemma extractAudio_Some r d :
  extractAudio r = Some d <-> firstPartPayload r d /\ d <> [].
Proof.
  unfold firstPartPayload. split.
  - audio_cases; try discriminate.
    intros E; injection E as <-. split; [|discriminate].
    repeat eexists; eassumption.
  - intros [(c & cs & ct & p & ps & b & Ec & Ect & Ep & Eb & Ed) N].
    unfold extractAudio, optIndex0, optChain.
    rewrite Ec; simpl. rewrite Ect, Ep; simpl. rewrite Eb, Ed.
    destruct d; [contradiction | reflexivity].
Qed.

Lemma extractAudio_None r : extractAudio r = None <-> audioMissing r.
Proof.
  split.
  - audio_cases; try discriminate; intros _.
    + eapply empty_candidates; eassumption.
    + eapply empty_parts; eassumption.
    + eapply empty_data; eassumption.
    + eapply missing_data; eassumption.
    + eapply missing_inlineData; eassumption.
    + eapply missing_parts; eassumption.
    + eapply missing_content; eassumption.
    + eapply missing_candidates; eassumption.
  - unfold extractAudio, optIndex0, optChain.
    intros [E|E|c cs E E1|c cs ct E E1 E2|c cs ct E E1 E2
           |c cs ct p ps E E1 E2 E3|c cs ct p ps b E E1 E2 E3 E4
           |c cs ct p ps b E E1 E2 E3 E4];
      rewrite E; simpl; trivial;
      rewrite E1; simpl; trivial;
      rewrite E2; simpl; trivial;
      rewrite E3; simpl; trivial;
      rewrite E4; reflexivity.
Qed.

(** C6: when the narration call answers, the result's audio is the inline
    payload of the first part of the first candidate when that payload
    exists and is not empty, and absent otherwise; a first part without
    inline data gives absent audio whatever the later parts carry. *)
Theorem narration_audio_is_first_part_payload
    img mime (w : World) r1 s1 r2 s2 r3 s3 :
  service (identifyParams img mime) (svc w) = (inr r1, s1) ->
  service (historyParams (landmarkNameOf r1)) s1 = (inr r2, s2) ->
  service (ttsParams (historyTextOf r2)) s2 = (inr r3, s3) ->
  exists a w',
    run (analyzePhoto img mime) w = (Returned a, w') /\
    (forall d,
        Analysis.audioBase64 a = Some d <->
        firstPartPayload r3 d /\ d <> []) /\
    (Analysis.audioBase64 a = None <->
     forall d, firstPartPayload r3 d -> d = []) /\
    (forall c cs ct p ps,
        Response.candidates r3 = Some (c :: cs) ->
        Candidate.content c = Some ct ->
        Content.parts ct = Some (p :: ps) ->
        Part.inlineData p = None ->
        Analysis.audioBase64 a = None).
Proof.
  intros E1 E2 E3.
  pose proof (run_analyzePhoto img mime w) as R. rewrite E1, E2, E3 in R.
  eexists; eexists; split; [exact R|]. cbn [Analysis.audioBase64].
  split; [apply extractAudio_Some|]. split.
  - split.
    + intros N d P. destruct d as [|x d]; [reflexivity|].
      assert (extractAudio r3 = Some (x :: d)) as E
        by (apply extractAudio_Some; split; [exact P | discriminate]).
      rewrite N in E; discriminate.
    + intros H. destruct (extractAudio r3) as [d|] eqn:E; [|reflexivity].
      apply extractAudio_Some in E as [P N]. now apply H in P.
  - intros c cs ct p ps Ec Ect Ep Eb. apply extractAudio_None.
    eapply missing_inlineData; eassumption.
Qed.

(* --------------------------------------------------------------------- *)
(** *** The page *)

Lemma run_handleFileSelect (file : File) (w : World) :
  run (handleFileSelect (Some file)) w =
  (Returned tt,
   mkWorld (svc w) (calls w) (console w)
     (mkUI analyzing (uiResult (ui w)) None)).
Proof. reflexivity. Qed.

(** C7: when the data URL read from the selected file does not have the
    shape [data:image/...;base64,...], the callback throws
    [Error("Invalid image format")] as its first step: no service call is
    made and [analyzePhoto] is not entered. *)
Theorem malformed_data_url_fails_before_any_call
    (file : File) (w : World) :
  matchDataURL (dataURL file) = None ->
  onloadend (dataURL file) = Throw (newError (lit "Invalid image format")) /\
  exists w',
    run (selectFile file) w =
      (Thrown (newError (lit "Invalid image format")), w') /\
    calls w' = calls w /\
    svc w' = svc w /\
    console w' = console w /\
    ui w' = mkUI analyzing (uiResult (ui w)) None.
Proof.
  intros M.
  assert (T : onloadend (dataURL file) =
              Throw (newError (lit "Invalid image format")))
    by (unfold onloadend; rewrite M; reflexivity).
  split; [exact T|].
  unfold selectFile. rewrite run_bind, run_handleFileSelect, T.
  eexists; split; [reflexivity|]. repeat split.
Qed.

(** C8: from the [analyzing] state the handler has set, a rejection of
    [analyzePhoto] ends in [idle] with a non-empty error text (the error's
    message, or "Failed to analyze photo") and leaves the stored result as it
    was; a returned analysis is stored, with the image, and the page ends in
    [result]. *)
Theorem page_follows_orchestrator
    (file : File) mimeType base64Data (w : World) :
  matchDataURL (dataURL file) = Some (mimeType, base64Data) ->
  let wa := snd (run (handleFileSelect (Some file)) w) in
  appState (ui wa) = analyzing /\
  (forall e w1,
      run (analyzePhoto base64Data mimeType) wa = (Thrown e, w1) ->
      exists w2,
        run (selectFile file) w = (Returned tt, w2) /\
        appState (ui w2) = idle /\
        uiError (ui w2) = Some (errorText e (lit "Failed to analyze photo")) /\
        errorText e (lit "Failed to analyze photo") <> [] /\
        uiResult (ui w2) = uiResult (ui w)) /\
  (forall a w1,
      run (analyzePhoto base64Data mimeType) wa = (Returned a, w1) ->
      exists w2,
        run (selectFile file) w = (Returned tt, w2) /\
        appState (ui w2) = result /\
        uiResult (ui w2) =
          Some (ResultData.mk (dataURL file) (Analysis.landmark a)
                  (Analysis.history a) (Analysis.audioBase64 a)) /\
        uiError (ui w2) = None).
Proof.
  intros M wa. subst wa. rewrite run_handleFileSelect. cbn [snd].
  split; [reflexivity|].
  assert (U : forall c w1,
             run (analyzePhoto base64Data mimeType)
               (mkWorld (svc w) (calls w) (console w)
                  (mkUI analyzing (uiResult (ui w)) None)) = (c, w1) ->
             ui w1 = mkUI analyzing (uiResult (ui w)) None).
  { intros c w1 E. rewrite run_analyzePhoto in E. cbn [svc] in E.
    repeat match type of E with
           | context [match service ?p ?s with _ => _ end] =>
               destruct (service p s) as [[?|?] ?]
           end; injection E as _ <-; reflexivity. }
  split.
  - intros e w1 E. pose proof (U _ _ E) as Ui.
    unfold selectFile. rewrite run_bind, run_handleFileSelect.
    unfold onloadend. rewrite M. rewrite run_try_catch, run_bind, E.
    cbn. rewrite Ui. cbn.
    eexists; split; [reflexivity|]. cbn.
    repeat split. apply orElse_nonempty. discriminate.
  - intros a w1 E. pose proof (U _ _ E) as Ui.
    unfold selectFile. rewrite run_bind, run_handleFileSelect.
    unfold onloadend. rewrite M. rewrite run_try_catch, run_bind, E.
    cbn. rewrite Ui. cbn.
    eexists; split; [reflexivity|]. cbn. repeat split.
Qed.

(* --------------------------------------------------------------------- *)
(** *** Shape of a returned result *)

Lemma trimmed_or_fallback_clean (t : option js_string) fallback :
  fallback <> [] -> cleanEnds fallback = true ->
  let v := orElse (optCall t trim) fallback in
  v <> [] /\ noSurroundingSpace v /\
  (v = fallback \/ exists s, t = Some s /\ v = trim s /\ trim s <> []).
Proof.
  intros N C v. subst v.
  pose proof (orElse_trim_cases t fallback) as H.
  destruct t as [s|].
  - destruct (blank s).
    + rewrite H. repeat split; [exact N | apply cleanEnds_sound, C
                               | apply cleanEnds_sound, C | now left].
    + destruct H as [H T]. rewrite H.
      split; [exact T|]. split; [apply trim_noSurroundingSpace|].
      right; exists s; repeat split; assumption.
  - rewrite H. repeat split; [exact N | apply cleanEnds_sound, C
                             | apply cleanEnds_sound, C | now left].
Qed.

(** C9: in every returned result the landmark and the history are non-empty
    and neither starts nor ends with white space; each is the fallback
    literal of its stage or the non-empty trimmed text of its response. *)
Theorem result_fields_nonempty_and_trimmed
    img mime (w : World) a w' :
  run (analyzePhoto img mime) w = (Returned a, w') ->
  (Analysis.landmark a <> [] /\ noSurroundingSpace (Analysis.landmark a)) /\
  (Analysis.history a <> [] /\ noSurroundingSpace (Analysis.history a)) /\
  exists r1 s1 r2 s2,
    service (identifyParams img mime) (svc w) = (inr r1, s1) /\
    service (historyParams (Analysis.landmark a)) s1 = (inr r2, s2) /\
    (Analysis.landmark a = lit "Unknown Location" \/
     exists t, Response.text r1 = Some t /\
               Analysis.landmark a = trim t /\ trim t <> []) /\
    (Analysis.history a = lit "History not available." \/
     exists t, Response.text r2 = Some t /\
               Analysis.history a = trim t /\ trim t <> []).
Proof.
  intros E.
  pose proof (run_analyzePhoto img mime w) as R. rewrite E in R.
  destruct (service (identifyParams img mime) (svc w)) as [[e|r1] s1];
    [discriminate|].
  destruct (service (historyParams (landmarkNameOf r1)) s1)
    as [[e|r2] s2] eqn:E2; [discriminate|].
  assert (L : Analysis.landmark a = landmarkNameOf r1 /\
              Analysis.history a = historyTextOf r2).
  { destruct (service (ttsParams (historyTextOf r2)) s2) as [[e|r3] s3];
      injection R as -> _; split; reflexivity. }
  destruct L as [L H]. rewrite L, H.
  destruct (trimmed_or_fallback_clean (Response.text r1)
              (lit "Unknown Location")) as (A1 & A2 & A3);
    [discriminate | reflexivity |].
  destruct (trimmed_or_fallback_clean (Response.text r2)
              (lit "History not available.")) as (B1 & B2 & B3);
    [discriminate | reflexivity |].
  split; [split; assumption|]. split; [split; assumption|].
  exists r1, s1, r2, s2. repeat split; assumption.
Qed.

(** C10: the audio extraction has a value for every response: it is [null]
    exactly when a link of the chain is missing, an array on it is empty or
    the payload is the empty string, so it is never the empty string; and
    whatever response the narration call resolves with, stage 3 completes
    without entering its [catch] and the result carries the extracted
    value. *)
Theorem audio_extraction_total_and_never_empty :
  (forall r, extractAudio r <> Some []) /\
  (forall r, extractAudio r = None <-> audioMissing r) /\
  (forall r, extractAudio r = None \/
             exists d, extractAudio r = Some d /\ d <> [] /\
                       firstPartPayload r d) /\
  (forall img mime (w : World) r1 s1 r2 s2 r3 s3,
      service (identifyParams img mime) (svc w) = (inr r1, s1) ->
      service (historyParams (landmarkNameOf r1)) s1 = (inr r2, s2) ->
      service (ttsParams (historyTextOf r2)) s2 = (inr r3, s3) ->
      exists a w',
        run (analyzePhoto img mime) w = (Returned a, w') /\
        Analysis.audioBase64 a = extractAudio r3 /\
        Analysis.audioBase64 a <> Some [] /\
        console w' = console w).
Proof.
  split; [intros r; apply orNull_nonempty|].
  split; [exact extractAudio_None|].
  split.
  - intros r. destruct (extractAudio r) as [d|] eqn:E; [right | now left].
    exists d. apply extractAudio_Some in E as [P N]. repeat split; assumption.
  - intros img mime w r1 s1 r2 s2 r3 s3 E1 E2 E3.
    pose proof (run_analyzePhoto img mime w) as R. rewrite E1, E2, E3 in R.
    eexists; eexists; split; [exact R|]. cbn.
    repeat split; [apply orNull_nonempty | apply app_nil_r].
Qed.

End Properties.

(* ===================================================================== *)
(** ** The statements at concrete runs *)
(* ===================================================================== *)

Lemma analyzePhoto_returns_iff_fatal_stages_succeed_witness :
  (exists w', sampleRun [inl timeoutError] = (Thrown timeoutError, w')) /\
  (exists w', sampleRun [eiffel; inl timeoutError]
              = (Thrown timeoutError, w')) /\
  (exists a w', sampleRun quotaScript = (Returned a, w')).
Proof.
  split; [|split].
  - apply (proj1 (proj2 (analyzePhoto_returns_iff_fatal_stages_succeed
                           nat (scripted [inl timeoutError])
                           sampleImage sampleMime world0))
             timeoutError 1%nat).
    reflexivity.
  - apply (proj1 (proj2 (proj2 (analyzePhoto_returns_iff_fatal_stages_succeed
                           nat (scripted [eiffel; inl timeoutError])
                           sampleImage sampleMime world0)))
             (textResponse (lit "  Eiffel Tower, Paris, France ")) 1%nat
             timeoutError 2%nat); reflexivity.
  - apply (proj2 (proj2 (proj2 (analyzePhoto_returns_iff_fatal_stages_succeed
                           nat (scripted quotaScript)
                           sampleImage sampleMime world0)))
             (textResponse (lit "  Eiffel Tower, Paris, France ")) 1%nat
             (textResponse (lit "Built for the 1889 World's Fair.")) 2%nat
             quotaError 3%nat); reflexivity.
Defined.

Lemma narration_failure_is_contained_witness :
  exists a w',
    sampleRun quotaScript = (Returned a, w') /\
    Analysis.landmark a = lit "Eiffel Tower, Paris, France" /\
    Analysis.history a = lit "Built for the 1889 World's Fair." /\
    Analysis.audioBase64 a = None.
Proof.
  destruct (narration_failure_is_contained
              nat (scripted quotaScript) sampleImage sampleMime world0
              (textResponse (lit "  Eiffel Tower, Paris, France ")) 1%nat
              (textResponse (lit "Built for the 1889 World's Fair.")) 2%nat
              quotaError 3%nat eq_refl eq_refl eq_refl)
    as (a & w' & R & L & H & A & _).
  exists a, w'. repeat split; [exact R | rewrite L | rewrite H | exact A];
    vm_compute; reflexivity.
Defined.

Lemma landmark_is_trimmed_text_or_fallback_witness :
  (sampleRun blankScript
     = (Returned blankAnalysis, snd (sampleRun blankScript)) /\
   Analysis.landmark blankAnalysis = lit "Unknown Location") /\
  (sampleRun quotaScript
     = (Returned quotaAnalysis, snd (sampleRun quotaScript)) /\
   Analysis.landmark quotaAnalysis
     = trim (lit "  Eiffel Tower, Paris, France ")).
Proof.
  assert (Rb : sampleRun blankScript
               = (Returned blankAnalysis, snd (sampleRun blankScript)))
    by (vm_compute; reflexivity).
  assert (Rq : sampleRun quotaScript
               = (Returned quotaAnalysis, snd (sampleRun quotaScript)))
    by (vm_compute; reflexivity).
  split; (split; [assumption|]).
  - destruct (landmark_is_trimmed_text_or_fallback
                nat (scripted blankScript) sampleImage sampleMime world0
                blankAnalysis (snd (sampleRun blankScript)) Rb)
      as (r1 & s1 & E & F & _).
    injection E as <- _. apply F. reflexivity.
  - destruct (landmark_is_trimmed_text_or_fallback
                nat (scripted quotaScript) sampleImage sampleMime world0
                quotaAnalysis (snd (sampleRun quotaScript)) Rq)
      as (r1 & s1 & E & _ & T).
    injection E as <- _.
    exact (proj1 (T (lit "  Eiffel Tower, Paris, France ") eq_refl eq_refl)).
Defined.

Lemma history_is_trimmed_text_or_fallback_witness :
  (sampleRun blankScript
     = (Returned blankAnalysis, snd (sampleRun blankScript)) /\
   Analysis.history blankAnalysis = lit "History not available.") /\
  (sampleRun audioScript
     = (Returned audioAnalysis, snd (sampleRun audioScript)) /\
   Analysis.history audioAnalysis
     = trim (lit "Built for the 1889 World's Fair.")).
Proof.
  assert (Rb : sampleRun blankScript
               = (Returned blankAnalysis, snd (sampleRun blankScript)))
    by (vm_compute; reflexivity).
  assert (Ra : sampleRun audioScript
               = (Returned audioAnalysis, snd (sampleRun audioScript)))
    by (vm_compute; reflexivity).
  split; (split; [assumption|]).
  - destruct (history_is_trimmed_text_or_fallback
                nat (scripted blankScript) sampleImage sampleMime world0
                blankAnalysis (snd (sampleRun blankScript)) Rb)
      as (r1 & s1 & r2 & s2 & E1 & E2 & F & _).
    injection E1 as _ <-. injection E2 as <- _. apply F. reflexivity.
  - destruct (history_is_trimmed_text_or_fallback
                nat (scripted audioScript) sampleImage sampleMime world0
                audioAnalysis (snd (sampleRun audioScript)) Ra)
      as (r1 & s1 & r2 & s2 & E1 & E2 & _ & T).
    injection E1 as _ <-. injection E2 as <- _.
    exact (proj1 (T (lit "Built for the 1889 World's Fair.")
                    eq_refl eq_refl)).
Defined.

Lemma history_prompt_carries_label_of_same_run_witness :
  scripted blankScript (identifyParams sampleImage sampleMime) 0%nat
    = (inr (textResponse (lit "   ")), 1%nat) /\
  nth_error (calls (snd (sampleRun blankScript))) 1
    = Some (historyParams (lit "Unknown Location")) /\
  fst (sampleRun blankScript) = Returned blankAnalysis.
Proof.
  split; [reflexivity|].
  destruct (history_prompt_carries_label_of_same_run
              nat (scripted blankScript) sampleImage sampleMime world0
              (textResponse (lit "   ")) 1%nat
              (fst (sampleRun blankScript)) (snd (sampleRun blankScript))
              eq_refl (surjective_pairing _))
    as ((rest & C) & _ & U & _).
  split; [|vm_compute; reflexivity].
  rewrite C, <- (U eq_refl). reflexivity.
Defined.

Lemma narration_audio_is_first_part_payload_witness :
  (exists a w', sampleRun audioScript = (Returned a, w') /\
                Analysis.audioBase64 a = Some (lit "UklGRg==")) /\
  (exists a w', sampleRun blankScript = (Returned a, w') /\
                Analysis.audioBase64 a = None).
Proof.
  split.
  - destruct (narration_audio_is_first_part_payload
                nat (scripted audioScript) sampleImage sampleMime world0
                (textResponse (lit "  Eiffel Tower, Paris, France ")) 1%nat
                (textResponse (lit "Built for the 1889 World's Fair.")) 2%nat
                (partsResponse
                   [audioPart (lit "UklGRg=="); audioPart (lit "AAAA")])
                3%nat eq_refl eq_refl eq_refl)
      as (a & w' & R & P & _).
    exists a, w'. split; [exact R|]. apply P. split; [|discriminate].
    repeat eexists.
  - destruct (narration_audio_is_first_part_payload
                nat (scripted blankScript) sampleImage sampleMime world0
                (textResponse (lit "   ")) 1%nat emptyResponse 2%nat
                (partsResponse
                   [textPart (lit "intro"); audioPart (lit "UklGRg==")])
                3%nat eq_refl eq_refl eq_refl)
      as (a & w' & R & _ & _ & N).
    exists a, w'. split; [exact R|].
    eapply N; reflexivity.
Defined.

Lemma malformed_data_url_fails_before_any_call_witness :
  matchDataURL (dataURL badFile) = None /\
  exists w',
    run (scripted audioScript) (selectFile badFile) world0
      = (Thrown (newError (lit "Invalid image format")), w') /\
    calls w' = [].
Proof.
  split; [reflexivity|].
  destruct (malformed_data_url_fails_before_any_call
              nat (scripted audioScript) badFile world0 eq_refl)
    as (_ & w' & R & C & _).
  exists w'. split; [exact R | exact C].
Defined.

Lemma page_follows_orchestrator_witness :
  matchDataURL (dataURL sampleFile) = Some (sampleMime, sampleImage) /\
  (exists w2,
      run (scripted [inl timeoutError]) (selectFile sampleFile) world0
        = (Returned tt, w2) /\
      appState (ui w2) = idle /\
      uiError (ui w2) = Some (lit "timed out") /\
      uiResult (ui w2) = None) /\
  (exists w2,
      run (scripted audioScript) (selectFile sampleFile) world0
        = (Returned tt, w2) /\
      appState (ui w2) = result /\
      uiResult (ui w2) =
        Some (ResultData.mk (dataURL sampleFile)
                (lit "Eiffel Tower, Paris, France")
                (lit "Built for the 1889 World's Fair.")
                (Some (lit "UklGRg==")))).
Proof.
  split; [reflexivity|]. split.
  - destruct (page_follows_orchestrator
                nat (scripted [inl timeoutError]) sampleFile
                sampleMime sampleImage world0 eq_refl)
      as (_ & Rej & _).
    edestruct (Rej timeoutError) as (w2 & R & A & E & _ & U);
      [vm_compute; reflexivity|].
    exists w2. repeat split; [exact R | exact A | | exact U].
    rewrite E. vm_compute; reflexivity.
  - destruct (page_follows_orchestrator
                nat (scripted audioScript) sampleFile
                sampleMime sampleImage world0 eq_refl)
      as (_ & _ & Res).
    edestruct (Res audioAnalysis) as (w2 & R & A & U & _);
      [vm_compute; reflexivity|].
    exists w2. repeat split; [exact R | exact A | exact U].
Defined.

Lemma result_fields_nonempty_and_trimmed_witness :
  sampleRun blankScript
    = (Returned blankAnalysis, snd (sampleRun blankScript)) /\
  Analysis.landmark blankAnalysis <> [] /\
  Analysis.history blankAnalysis <> [].
Proof.
  assert (Rb : sampleRun blankScript
               = (Returned blankAnalysis, snd (sampleRun blankScript)))
    by (vm_compute; reflexivity).
  split; [exact Rb|].
  destruct (result_fields_nonempty_and_trimmed
              nat (scripted blankScript) sampleImage sampleMime world0
              blankAnalysis (snd (sampleRun blankScript)) Rb)
    as ((L & _) & (H & _) & _).
  split; assumption.
Defined.

Lemma audio_extraction_total_and_never_empty_witness :
  exists a w',
    sampleRun audioScript = (Returned a, w') /\
    Analysis.audioBase64 a <> Some [] /\
    console w' = [].
Proof.
  destruct (proj2 (proj2 (proj2
              (audio_extraction_total_and_never_empty
                 nat (scripted audioScript))))
              sampleImage sampleMime world0
              (textResponse (lit "  Eiffel Tower, Paris, France ")) 1%nat
              (textResponse (lit "Built for the 1889 World's Fair.")) 2%nat
              (partsResponse
                 [audioPart (lit "UklGRg=="); audioPart (lit "AAAA")])
              3%nat eq_refl eq_refl eq_refl)
    as (a & w' & R & _ & N & C).
  exists a, w'. repeat split; assumption.
Defined.

(* ===================================================================== *)
(** ** Further properties: the data-URL pattern *)
(* ===================================================================== *)

Lemma forallb_not_exists (f : code_unit -> bool) (l : js_string) :
  existsb f l = true -> forallb (fun c => negb (f c)) l = false.
Proof.
  induction l as [|c l IH]; simpl; [discriminate|].
  destruct (f c); simpl; [reflexivity | exact IH].
Qed.

(** X1: the pattern splits a data URL without loss.  An accepted string is
    ["data:" ++ m ++ ";base64," ++ d] for the two groups [m] and [d] it
    yields; and every string built that way from a non-empty subtype over
    [[a-zA-Z+]] and a non-empty payload without line terminators is accepted
    and yields those same two groups. *)
Theorem dataURL_roundtrip :
  (forall s m d,
      matchDataURL s = Some (m, d) ->
      s = lit "data:" ++ m ++ lit ";base64," ++ d) /\
  (forall subtype d,
      subtype <> [] -> forallb isSubtypeChar subtype = true ->
      d <> [] -> forallb (fun c => negb (isLineTerminator c)) d = true ->
      matchDataURL
        (lit "data:" ++ (lit "image/" ++ subtype) ++ lit ";base64," ++ d)
      = Some (lit "image/" ++ subtype, d)).
Proof.
  split.
  - intros s m d E. apply matchDataURL_Some in E.
    destruct E as (sub & -> & -> & _). now rewrite <- !app_assoc.
  - intros sub d Ns Fs Nd Fd. apply matchDataURL_Some.
    exists sub. rewrite <- !app_assoc. repeat split; assumption.
Qed.

(** X2: what the pattern turns down.  A string that does not start with
    ["data:image/"]; a subtype that is empty or runs into a code unit outside
    [[a-zA-Z+]] before the [;] (a digit, [-], [.]); an empty payload; a
    payload containing a line terminator. *)
Theorem matchDataURL_rejects :
  (forall s,
      stripPrefix (lit "data:image/") s = None -> matchDataURL s = None) /\
  (forall a c rest,
      forallb isSubtypeChar a = true -> isSubtypeChar c = false ->
      a = [] \/ c <> 59 ->
      matchDataURL (lit "data:image/" ++ a ++ c :: rest) = None) /\
  (forall subtype,
      forallb isSubtypeChar subtype = true ->
      matchDataURL (lit "data:image/" ++ subtype ++ lit ";base64,") = None) /\
  (forall subtype d,
      forallb isSubtypeChar subtype = true ->
      existsb isLineTerminator d = true ->
      matchDataURL (lit "data:image/" ++ subtype ++ lit ";base64," ++ d)
      = None).
Proof.
  split; [|split; [|split]].
  - intros s E. apply matchDataURL_None. intros m d (sub & -> & _).
    change (lit "data:" ++ lit "image/" ++ sub ++ lit ";base64," ++ d)
      with (lit "data:image/" ++ sub ++ lit ";base64," ++ d) in E.
    rewrite (proj2 (stripPrefix_Some _ _ _) eq_refl) in E. discriminate.
  - intros a c rest Fa Fc H. unfold matchDataURL.
    change (lit "data:image/" ++ a ++ c :: rest)
      with (lit "data:" ++ lit "image/" ++ a ++ c :: rest).
    rewrite (proj2 (stripPrefix_Some _ _ _) eq_refl).
    rewrite (proj2 (stripPrefix_Some _ _ _) eq_refl).
    rewrite (span_stop isSubtypeChar a c rest Fa Fc).
    destruct a as [|x a]; [reflexivity|].
    destruct H as [H|H]; [discriminate|].
    destruct (stripPrefix (lit ";base64,") (c :: rest)) as [r|] eqn:E;
      [|reflexivity].
    apply stripPrefix_Some in E. injection E as E _. congruence.
  - intros sub Fs. unfold matchDataURL.
    change (lit "data:image/" ++ sub ++ lit ";base64,")
      with (lit "data:" ++ lit "image/" ++ sub ++ 59 :: lit "base64,").
    rewrite (proj2 (stripPrefix_Some _ _ _) eq_refl).
    rewrite (proj2 (stripPrefix_Some _ _ _) eq_refl).
    rewrite (span_stop isSubtypeChar sub 59 _ Fs eq_refl).
    destruct sub; reflexivity.
  - intros sub d Fs Ld. unfold matchDataURL.
    change (lit "data:image/" ++ sub ++ lit ";base64," ++ d)
      with (lit "data:" ++ lit "image/" ++ sub ++ 59 :: lit "base64," ++ d).
    rewrite (proj2 (stripPrefix_Some _ _ _) eq_refl).
    rewrite (proj2 (stripPrefix_Some _ _ _) eq_refl).
    rewrite (span_stop isSubtypeChar sub 59 _ Fs eq_refl).
    destruct sub as [|x sub]; [reflexivity|].
    change (59 :: lit "base64," ++ d) with (lit ";base64," ++ d).
    rewrite (proj2 (stripPrefix_Some _ _ _) eq_refl).
    destruct d as [|y d]; [reflexivity|].
    now rewrite (forallb_not_exists _ _ Ld).
Qed.

(* ===================================================================== *)
(** ** Further properties: the pipeline's requests and console lines *)
(* ===================================================================== *)

Section PipelineTrace.

Variable ServiceState : Type.
Variable service :
  GenerateContentParameters -> ServiceState -> Outcome * ServiceState.

Local Abbreviation World := (World ServiceState).
Local Abbreviation run := (run service).

Ltac by_outcomes R :=
  rewrite run_analyzePhoto in R;
  repeat match type of R with
         | context [match ?f ?p ?s with _ => _ end] =>
             destruct (f p s) as [[?|?] ?]
         end;
  injection R as <- <-.


(** The requests of a run: the identification first, then at most two. *)
Lemma analyzePhoto_calls img mime (w : World) c w' :
  run (analyzePhoto img mime) w = (c, w') ->
  exists later,
    calls w' = calls w ++ identifyParams img mime :: later /\
    (List.length later <= 2)%nat.
Proof.
  intros R. by_outcomes R; eexists; (split; [reflexivity | simpl; lia]).
Qed.

(** X3: a run sends the identification request first and then at most two
    more, never one stage twice; it sends all three exactly when it returns,
    and after a rejected identification or history call it sends nothing
    further. *)
Theorem analyzePhoto_call_discipline img mime (w : World) c w' :
  run (analyzePhoto img mime) w = (c, w') ->
  exists later,
    calls w' = calls w ++ identifyParams img mime :: later /\
    ((exists a, c = Returned a) <->
     exists label text, later = [historyParams label; ttsParams text]) /\
    ((exists e, c = Thrown e) <->
     later = [] \/ exists label, later = [historyParams label]).
Proof.
  intros R. by_outcomes R; eexists; (split; [reflexivity|]); split; split.
  all: try (intros _; eauto; fail).
  all: try (intros [? E]; discriminate E).
  all: try (intros [? [? E]]; discriminate E).
  all: try (intros [E|[? E]]; discriminate E).
Qed.

(** X4: in a run that returns, the history request asks about exactly the
    landmark of the returned result, and the narration request carries
    exactly its history text: what is spoken is what is shown. *)
Theorem requests_match_returned_result img mime (w : World) a w' :
  run (analyzePhoto img mime) w = (Returned a, w') ->
  calls w' =
    calls w ++ [ identifyParams img mime;
                 historyParams (Analysis.landmark a);
                 ttsParams (Analysis.history a) ] /\
  contents (ttsParams (Analysis.history a)) =
    ContentsList
      [Content.mk (Some [Part.mk None (Some (Analysis.history a))])].
Proof.
  intros R. rewrite run_analyzePhoto in R.
  repeat match type of R with
         | context [match ?f ?p ?s with _ => _ end] =>
             destruct (f p s) as [[?|?] ?]
         end; try discriminate;
    injection R as <- <-; split; reflexivity.
Qed.

(** X5: a run writes at most one console line and none of the page's state
    cells.  A rejected run writes the line "Error analyzing photo:" with the
    error it rejects with; a returned run writes either nothing, or the line
    "TTS generation failed:", and then its audio is [null]. *)
Theorem analyzePhoto_console_discipline img mime (w : World) c w' :
  run (analyzePhoto img mime) w = (c, w') ->
  ui w' = ui w /\
  match c with
  | Thrown e =>
      console w' =
        console w ++ [[LogText (lit "Error analyzing photo:"); LogError e]]
  | Returned a =>
      console w' = console w \/
      (exists e,
          console w' =
            console w ++
              [[LogText (lit "TTS generation failed:"); LogError e]]) /\
      Analysis.audioBase64 a = None
  end.
Proof.
  intros R. by_outcomes R; (split; [reflexivity|]); cbn [console called].
  - reflexivity.
  - reflexivity.
  - right. split; [eexists|]; reflexivity.
  - left. apply app_nil_r.
Qed.

End PipelineTrace.

(* ===================================================================== *)
(** ** Further properties: the page *)
(* ===================================================================== *)

Section PageProperties.

Variable ServiceState : Type.
Variable service :
  GenerateContentParameters -> ServiceState -> Outcome * ServiceState.

Local Abbreviation World := (World ServiceState).

(** The whole behaviour of a file selection, by the match and by the outcome
    of [analyzePhoto]. *)
Lemma run_selectFile (file : File) (w : World) :
  run service (selectFile file) w =
  match matchDataURL (dataURL file) with
  | None => (Thrown (newError (lit "Invalid image format")), entered w)
  | Some (mimeType, base64Data) =>
      match run service (analyzePhoto base64Data mimeType) (entered w) with
      | (Returned a, w1) =>
          (Returned tt,
           mkWorld (svc w1) (calls w1) (console w1)
             (mkUI result
                (Some (ResultData.mk (dataURL file) (Analysis.landmark a)
                         (Analysis.history a) (Analysis.audioBase64 a)))
                (uiError (ui w1))))
      | (Thrown e, w1) =>
          (Returned tt,
           mkWorld (svc w1) (calls w1) (console w1 ++ [[LogError e]])
             (mkUI idle (uiResult (ui w1))
                (Some (errorText e (lit "Failed to analyze photo")))))
      end
  end.
Proof.
  unfold selectFile. rewrite run_bind, run_handleFileSelect.
  fold (entered w). unfold onloadend.
  destruct (matchDataURL (dataURL file)) as [[m d]|]; [|reflexivity].
  rewrite run_try_catch, run_bind.
  destruct (run service (analyzePhoto d m) (entered w))
    as [[a|e] w1]; reflexivity.
Qed.






(** X6: a selection whose data URL matches sends, as the first request of
    the run, the identification request built from exactly the two pieces of
    that URL, then at most two more; the handler completes, and a result it
    stores carries the selected file's data URL as its image. *)
Theorem selection_sends_selected_image
    (file : File) mimeType base64Data (w : World) c w' :
  matchDataURL (dataURL file) = Some (mimeType, base64Data) ->
  run service (selectFile file) w = (c, w') ->
  c = Returned tt /\
  dataURL file = lit "data:" ++ mimeType ++ lit ";base64," ++ base64Data /\
  (exists later,
      calls w' = calls w ++ identifyParams base64Data mimeType :: later /\
      (List.length later <= 2)%nat) /\
  (appState (ui w') = result ->
   exists r, uiResult (ui w') = Some r /\
             ResultData.imageSrc r = dataURL file).
Proof.
  intros M R. rewrite run_selectFile, M in R.
  assert (D : dataURL file
              = lit "data:" ++ mimeType ++ lit ";base64," ++ base64Data).
  { apply matchDataURL_Some in M. destruct M as (sub & -> & -> & _).
    now rewrite <- !app_assoc. }
  destruct (run service (analyzePhoto base64Data mimeType)
              (entered w)) as [[a|e] w1] eqn:Ra;
    destruct (analyzePhoto_calls _ _ _ _ _ _ _ Ra) as (later & C & Len);
    injection R as <- <-; (split; [reflexivity|]); (split; [exact D|]);
    (split; [exists later; split; [exact C | exact Len]|]); cbn.
  - intros _. eexists; split; reflexivity.
  - discriminate.
Qed.






Lemma pageStep_leaves_analyzing (w : World) ev :
  wellFormedPick ev = true ->
  appState (ui w) <> analyzing ->
  appState (ui (pageStep service w ev)) <> analyzing.
Proof.
  intros W A. unfold pageStep.
  destruct (offered (render (ui w)) ev); [|exact A].
  destruct ev as [[file|]|a]; cbn [react].
  - rewrite run_selectFile. cbn [wellFormedPick] in W.
    destruct (matchDataURL (dataURL file)) as [[m d]|]; [|discriminate].
    destruct (run service (analyzePhoto d m) (entered w))
      as [[an|e] w1]; cbn; discriminate.
  - exact A.
  - cbn; discriminate.
Qed.

(** X11: as long as every picked file has a well-formed image data URL, the
    page is never left on the analyzing block: each selection ends on the
    result block or back on the idle block, whatever the service answers. *)
Theorem well_formed_picks_never_hang (w : World) (evs : list UserEvent) :
  forallb wellFormedPick evs = true ->
  appState (ui w) <> analyzing ->
  appState (ui (pageRun service w evs)) <> analyzing /\
  render (ui (pageRun service w evs)) <> AnalyzingScreen.
Proof.
  intros F A.
  assert (G : appState (ui (pageRun service w evs)) <> analyzing).
  { revert w A; induction evs as [|ev evs IH]; intros w A; [exact A|].
    simpl in F. apply andb_true_iff in F as [Fe Fs].
    cbn [pageRun fold_left].
    apply (IH Fs). now apply pageStep_leaves_analyzing. }
  split; [exact G|]. unfold render.
  destruct (appState (ui (pageRun service w evs)));
    [discriminate | now contradiction G |].
  destruct (uiResult (ui (pageRun service w evs))); discriminate.
Qed.

End PageProperties.

(* ===================================================================== *)
(** ** The further statements at concrete inputs *)
(* ===================================================================== *)

Lemma dataURL_roundtrip_witness :
  dataURL sampleFile = lit "data:" ++ sampleMime ++ lit ";base64," ++ sampleImage /\
  matchDataURL (lit "data:" ++ (lit "image/" ++ lit "png") ++ lit ";base64,"
                  ++ sampleImage)
  = Some (lit "image/" ++ lit "png", sampleImage).
Proof.
  split.
  - apply (proj1 dataURL_roundtrip). reflexivity.
  - apply (proj2 dataURL_roundtrip); (discriminate || reflexivity).
Defined.

Lemma matchDataURL_rejects_witness :
  matchDataURL (dataURL iconFile) = None /\
  matchDataURL (dataURL badFile) = None /\
  matchDataURL (lit "data:image/png;base64,") = None /\
  matchDataURL (lit "data:image/png;base64," ++ [65; 10; 65]) = None.
Proof.
  split; [|split; [|split]].
  - apply (proj1 (proj2 matchDataURL_rejects)
             (lit "x") 45 (lit "icon;base64,AAAA"));
      [reflexivity | reflexivity | right; discriminate].
  - apply (proj1 matchDataURL_rejects). reflexivity.
  - apply (proj1 (proj2 (proj2 matchDataURL_rejects)) (lit "png")).
    reflexivity.
  - apply (proj2 (proj2 (proj2 matchDataURL_rejects)) (lit "png")
             [65; 10; 65]); reflexivity.
Defined.

Lemma analyzePhoto_call_discipline_witness :
  exists later,
    calls (snd (sampleRun [eiffel; inl timeoutError]))
    = calls world0 ++ identifyParams sampleImage sampleMime :: later.
Proof.
  destruct (analyzePhoto_call_discipline
              nat (scripted [eiffel; inl timeoutError])
              sampleImage sampleMime world0
              (fst (sampleRun [eiffel; inl timeoutError]))
              (snd (sampleRun [eiffel; inl timeoutError]))
              (surjective_pairing _)) as (later & C & _).
  exists later. exact C.
Defined.

Lemma requests_match_returned_result_witness :
  sampleRun audioScript
    = (Returned audioAnalysis, snd (sampleRun audioScript)) /\
  calls (snd (sampleRun audioScript)) =
    calls world0 ++
      [ identifyParams sampleImage sampleMime;
        historyParams (Analysis.landmark audioAnalysis);
        ttsParams (Analysis.history audioAnalysis) ].
Proof.
  assert (R : sampleRun audioScript
              = (Returned audioAnalysis, snd (sampleRun audioScript)))
    by (vm_compute; reflexivity).
  split; [exact R|].
  exact (proj1 (requests_match_returned_result
                  nat (scripted audioScript) sampleImage sampleMime world0
                  audioAnalysis (snd (sampleRun audioScript)) R)).
Defined.

Lemma analyzePhoto_console_discipline_witness :
  ui (snd (sampleRun quotaScript)) = ui world0.
Proof.
  exact (proj1 (analyzePhoto_console_discipline
                  nat (scripted quotaScript) sampleImage sampleMime world0
                  (fst (sampleRun quotaScript)) (snd (sampleRun quotaScript))
                  (surjective_pairing _))).
Defined.

Lemma selection_sends_selected_image_witness :
  matchDataURL (dataURL sampleFile) = Some (sampleMime, sampleImage) /\
  fst (run (scripted audioScript) (selectFile sampleFile) world0)
  = Returned tt.
Proof.
  split; [reflexivity|].
  exact (proj1 (selection_sends_selected_image
                  nat (scripted audioScript) sampleFile
                  sampleMime sampleImage world0
                  (fst (run (scripted audioScript) (selectFile sampleFile)
                          world0))
                  (snd (run (scripted audioScript) (selectFile sampleFile)
                          world0))
                  eq_refl (surjective_pairing _))).
Defined.




Lemma well_formed_picks_never_hang_witness :
  forallb wellFormedPick sessionEvents = true /\
  render (ui (pageRun (scripted sessionScript) world0 sessionEvents))
  <> AnalyzingScreen.
Proof.
  split; [reflexivity|].
  apply (well_formed_picks_never_hang
           nat (scripted sessionScript) world0 sessionEvents);
    [reflexivity | discriminate].
Defined.
